(** * proto.js: the record prototype of the model component

    A shallow embedding of [src/proto.js]: the methods mixed into every
    model instance (attribute store, dirty tracking, validation and the
    save / update / destroy orchestration over XMLHttpRequest), and the
    properties of the record lifecycle proved about them. *)

From stdpp Require Import base option list strings gmap pretty.
From Stdlib Require Import ZArith Lia Ascii.

Open Scope string_scope.
Open Scope list_scope.
Open Scope Z_scope.

(** ** JavaScript values held by a record *)

(** Attribute values and parsed response bodies.  Numbers are the integers
    (identifiers and counters); an object is its own enumerable properties. *)
#[warnings="-register-all"]
Inductive value :=
| VUndefined
| VNull
| VBool (b : bool)
| VNum (n : Z)
| VStr (s : string)
| VObj (props : gmap string value).

(** [ToBoolean]: what [if (v)] and [v || w] test. *)
Definition truthy (v : value) : bool :=
  match v with
  | VUndefined | VNull => false
  | VBool b => b
  | VNum n => negb (n =? 0)%Z
  | VStr s => negb (String.eqb s EmptyString)
  | VObj _ => true
  end.

(** [null != v]: loose inequality with [null] holds for everything except
    [null] and [undefined]. *)
Definition not_nullish (v : value) : bool :=
  match v with
  | VUndefined | VNull => false
  | _ => true
  end.

(** [ToString], as used by [url + '/' + id]. *)
Definition to_string (v : value) : string :=
  match v with
  | VUndefined => "undefined"
  | VNull => "null"
  | VBool true => "true"
  | VBool false => "false"
  | VNum n => pretty n
  | VStr s => s
  | VObj _ => "[object Object]"
  end.

(** [o.k]: property read; absent properties and reads on primitives give
    [undefined]. *)
Definition prop (o : value) (k : string) : value :=
  match o with
  | VObj ps => default VUndefined (ps !! k)
  | _ => VUndefined
  end.

(** ** The record instance and its schema *)

(** One entry of [this.errors]: [{ attr: attr, message: msg }]. *)
Record error_entry := ErrorEntry { attr : string; message : string }.

(** The mutable state of one instance: [this.attrs], [this.dirty] (only its
    key set is ever read), [this.errors] and [this.destroyed]. *)
Record Rec := mkRec {
  attrs : gmap string value;
  dirty : gset string;
  errors : list error_entry;
  destroyed : bool
}.

Definition set_attrs (a : gmap string value) (r : Rec) : Rec :=
  mkRec a (dirty r) (errors r) (destroyed r).
Definition set_dirty (d : gset string) (r : Rec) : Rec :=
  mkRec (attrs r) d (errors r) (destroyed r).
Definition set_errors (es : list error_entry) (r : Rec) : Rec :=
  mkRec (attrs r) (dirty r) es (destroyed r).
Definition set_destroyed (b : bool) (r : Rec) : Rec :=
  mkRec (attrs r) (dirty r) (errors r) b.

(** A validator is called as [fn(self)] and may act on the record. *)
Definition validator := Rec -> Rec.

(** [this.model]: the shared schema.  [model_url] is what [this.model.url()]
    returns (the collection URL, built by the schema). *)
Record Model := mkModel {
  primaryKey : string;
  base : string;
  model_url : string;
  validators : list validator
}.

(** ** Errors, callbacks and observable effects *)

(** [new Error(msg)]. *)
Inductive js_error := Error (msg : string).

(** Exceptions: the [TypeError] of calling a value that is not a function,
    and the [SyntaxError] of [JSON.parse] on a text that is not JSON. *)
Inductive exn := TypeError | SyntaxError.

(** A function value held in [fn]: the module's [noop], or a function of the
    caller, named by an identifier. *)
Inductive func := noop | caller_fn (id : nat).

(** What the surroundings of a record observe, in order: a request handed to
    XMLHttpRequest, an event handed to the emitter, a caller function
    invoked, an exception that leaves a response handler uncaught.  Emitters
    and callbacks are given the record as it stands at that moment. *)
Inductive effect :=
| Sent (method url body : string)
| Emitted (event : string) (seen : Rec)
| Called (id : nat) (err : option js_error) (seen : Rec)
| Uncaught (e : exn).

Record World := mkWorld { self : Rec; trace : list effect }.

Definition on_self (f : Rec -> Rec) (w : World) : World :=
  mkWorld (f (self w)) (trace w).
Definition observe (e : effect) (w : World) : World :=
  mkWorld (self w) (trace w ++ [e]).

(** The XMLHttpRequest object as the [onreadystatechange] handler reads it:
    [req.readyState], [req.status], [req.getResponseHeader('Content-Type')]
    ([None] for [null]) and [req.responseText]. *)
Record xhr := mkXhr {
  readyState : Z;
  status : Z;
  contentType : option string;
  responseText : string
}.

(** The [res] handed to a request callback: the request object, with
    [res.body] when it was assigned. *)
Record response := mkResponse { req : xhr; body : option value }.

(** How a method call ends: it returns with nothing outstanding, it returns
    having sent a request whose [onreadystatechange] handler is [h], or it
    throws. *)
Inductive outcome :=
| Returned
| Pending (h : xhr -> World -> World)
| Threw (e : exn).

(** ** Collaborators *)

(** The [json] component, which lives outside this repository and is taken
    by its interface: [JSON.stringify] applied to a record serialises what
    its [toJSON()] returns; [JSON.parse] turns a text into a value, or
    throws a [SyntaxError] when the text is not JSON ([None]). *)
Class Json := {
  stringify : gmap string value -> string;
  parse : string -> option value
}.

(** [x | 0]: conversion to a signed 32-bit integer. *)
Definition to_int32 (z : Z) : Z := (z + 2 ^ 31) mod 2 ^ 32 - 2 ^ 31.

(** [s.split(';')[0]]: the text before the first semicolon. *)
Fixpoint before_semicolon (s : string) : string :=
  match s with
  | EmptyString => EmptyString
  | String c s' =>
      if Ascii.eqb c ";"%char then EmptyString else String c (before_semicolon s')
  end.

(** ** The attribute store *)

(** [this.attrs[a]]: an attribute that was never stored reads as
    [undefined].  Attribute names are own properties of [attrs]; the names
    every object inherits are not among them. *)
Definition get (a : string) (r : Rec) : value :=
  default VUndefined (attrs r !! a).

(** [null != this.attrs[a]] *)
Definition has (a : string) (r : Rec) : bool :=
  not_nullish (get a r).

Definition toJSON (r : Rec) : gmap string value := attrs r.

Definition error (a msg : string) (r : Rec) : Rec :=
  set_errors (errors r ++ [ErrorEntry a msg]) r.

(** [false] is [None]; otherwise the dirty object, of which the keys are
    kept. *)
Definition changed (r : Rec) : option (gset string) :=
  match size (dirty r) with
  | O => None
  | S _ => Some (dirty r)
  end.

(** Modelled from the spec: the per-attribute accessor [this[name]], which
    the schema generates outside this file.  Called without argument it
    reads the attribute from the store. *)
Definition accessor_get (name : string) (r : Rec) : value := get name r.

(** Modelled from the spec: the same accessor called with a value, which
    stores the value and marks the attribute dirty. *)
Definition accessor_set (name : string) (v : value) (r : Rec) : Rec :=
  set_dirty ({[name]} ∪ dirty r) (set_attrs (<[name := v]> (attrs r)) r).

(** ** Effects *)

Definition emit (event : string) (w : World) : World :=
  observe (Emitted event (self w)) w.

(** [fn(err)] on a function value. *)
Definition invoke (f : func) (err : option js_error) (w : World) : World :=
  match f with
  | noop => w
  | caller_fn id => observe (Called id err (self w)) w
  end.

(** [fn || noop], for a parameter that is a caller function or missing. *)
Definition or_noop (fn : option nat) : func :=
  match fn with
  | Some id => caller_fn id
  | None => noop
  end.

Section proto.

Context {J : Json}.

(** [this.model] *)
Variable model : Model.

Definition isNew (r : Rec) : bool :=
  let key := primaryKey model in
  negb (has key r).

(** [primary()] and [primary(val)], told apart by [arguments.length]. *)
Definition primary_get (r : Rec) : value :=
  let key := primaryKey model in
  accessor_get key r.

Definition primary_set (val : value) (r : Rec) : Rec :=
  let key := primaryKey model in
  accessor_set key val r.

Definition validate (r : Rec) : Rec :=
  let fns := validators model in
  fold_left (fun self fn => fn self) fns (set_errors [] r).

Definition isValid (r : Rec) : Rec * bool :=
  let r' := validate r in
  (r', (0 =? length (errors r'))%nat).

(** [url()] is [url None]; [url(path)] is [url (Some path)]. *)
Definition url (path : option value) (r : Rec) : string :=
  let u := base model in
  let id := primary_get r in
  match path with
  | None => u +:+ "/" +:+ to_string id
  | Some p => u +:+ "/" +:+ to_string id +:+ "/" +:+ to_string p
  end.

(** The [onreadystatechange] handler installed by [request].  On a 2xx
    response typed as JSON the text is parsed before the callback is
    called; when the parse throws, the exception leaves the handler and
    nothing after it runs. *)
Definition on_ready (fn : option js_error -> response -> World -> World)
    (rq : xhr) (w : World) : World :=
  if (4 =? readyState rq)%Z then
    let st := to_int32 (Z.quot (status rq) 100) in
    let type := before_semicolon (default EmptyString (contentType rq)) in
    let json := String.eqb "application/json" type in
    if (2 =? st)%Z then
      if json then
        match parse (responseText rq) with
        | Some b => fn None (mkResponse rq (Some b)) w
        | None => observe (Uncaught SyntaxError) w
        end
      else fn None (mkResponse rq None) w
    else w
  else w.

Definition request (method u : string)
    (fn : option js_error -> response -> World -> World)
    (w : World) : World * outcome :=
  let json := stringify (toJSON (self w)) in
  (observe (Sent method u json) w, Pending (on_ready fn)).

Definition destroy (fn : option nat) (w : World) : World * outcome :=
  if isNew (self w) then
    match fn with
    | Some id => (invoke (caller_fn id) (Some (Error "not saved")) w, Returned)
    | None => (w, Threw TypeError)
    end
  else
    let u := url None (self w) in
    let fn := or_noop fn in
    request "DELETE" u
      (fun err res w' =>
         match err with
         | Some e => invoke fn (Some e) w'
         | None =>
             let w' := emit "destroy" w' in
             let w' := on_self (set_destroyed true) w' in
             invoke fn None w'
         end) w.

Definition update (fn : option nat) (w : World) : World * outcome :=
  let u := url None (self w) in
  let fn := or_noop fn in
  let (r, valid) := isValid (self w) in
  let w := mkWorld r (trace w) in
  if negb valid then (invoke fn (Some (Error "validation failed")) w, Returned)
  else
    request "PUT" u
      (fun err _ w' =>
         match err with
         | Some e => invoke fn (Some e) w'
         | None =>
             let w' := on_self (set_dirty ∅) w' in
             let w' := emit "update" w' in
             invoke fn None w'
         end) w.

Definition save (fn : option nat) (w : World) : World * outcome :=
  if negb (isNew (self w)) then update fn w
  else
    let u := model_url model in
    let fn := or_noop fn in
    let (r, valid) := isValid (self w) in
    let w := mkWorld r (trace w) in
    if negb valid then (invoke fn (Some (Error "validation failed")) w, Returned)
    else
      request "POST" u
        (fun err res w' =>
           match err with
           | Some e => invoke fn (Some e) w'
           | None =>
               let w' :=
                 match body res with
                 | Some b =>
                     if truthy b then on_self (primary_set (prop b "id")) w'
                     else w'
                 | None => w'
                 end in
               let w' := on_self (set_dirty ∅) w' in
               let w' := emit "save" w' in
               invoke fn None w'
           end) w.

End proto.

(** ** Reading a run *)

(** The browser fires [readystatechange] on an outstanding request. *)
Definition deliver (p : World * outcome) (rq : xhr) : World :=
  match p with
  | (w, Pending h) => h rq w
  | (w, _) => w
  end.

(** The requests sent, the events emitted and the caller functions invoked
    along a trace. *)
Definition requests (t : list effect) : list (string * string * string) :=
  omap (fun e => match e with
                 | Sent method u b => Some (method, u, b)
                 | _ => None
                 end) t.

Definition emitted (t : list effect) : list string :=
  omap (fun e => match e with
                 | Emitted event _ => Some event
                 | _ => None
                 end) t.

Definition callbacks (t : list effect) : list (nat * option js_error) :=
  omap (fun e => match e with
                 | Called id err _ => Some (id, err)
                 | _ => None
                 end) t.

(** The status line of a completed response: [readyState] 4 and a status in
    the range of the [unsigned short] an XMLHttpRequest reports. *)
Definition completed (rq : xhr) : Prop :=
  readyState rq = 4 /\ 0 <= status rq < 65536.

Definition is_2xx (rq : xhr) : Prop := 200 <= status rq <= 299.

(** The contract of a validator that only reports: whatever else it reads,
    it leaves the dirty marks alone. *)
Definition keeps_dirty (v : validator) : Prop :=
  forall r, dirty (v r) = dirty r.

(** A validator that registers the one error [e]. *)
Definition registers (v : validator) (e : error_entry) : Prop :=
  forall r, errors (v r) = errors r ++ [e].




(** A call that sent its request, and whose handler changes nothing on a
    response that is not 2xx. *)
Definition inert_on_failure (p : World * outcome) : Prop :=
  exists h, snd p = Pending h /\
    forall rq w', completed rq -> ~ is_2xx rq -> h rq w' = w'.

(** ** A schema and a server to run the scenarios *)

Definition dquote : string := String "034"%char EmptyString.

Definition render (v : value) : string :=
  match v with
  | VStr s => dquote +:+ s +:+ dquote
  | _ => to_string v
  end.

Fixpoint join (l : list string) : string :=
  match l with
  | [] => EmptyString
  | [x] => x
  | x :: l => x +:+ "," +:+ join l
  end.

(** A serialiser for the flat records of the scenarios: strings quoted,
    numbers in decimal, keys in the order of the map. *)
Definition flat_stringify (a : gmap string value) : string :=
  "{" +:+ join (map (fun kv => dquote +:+ kv.1 +:+ dquote +:+ ":" +:+ render kv.2)
                  (map_to_list a)) +:+ "}".

(** The body the scenario server replies with to a create: an object
    whose [id] is 5. *)
Definition reply_id_5 : string := "{" +:+ dquote +:+ "id" +:+ dquote +:+ ":5}".

(** The parser at work in the scenarios.  It reads the two texts the
    scenario server sends as JSON, the object above and [null]; the other
    texts of the scenarios, the empty text and an error page, are not JSON
    and make it throw. *)
Definition scenario_parse (s : string) : option value :=
  if String.eqb s reply_id_5 then Some (VObj {[ "id" := VNum 5 ]})
  else if String.eqb s "null" then Some VNull
  else None.

Definition scenario_json : Json :=
  {| stringify := flat_stringify; parse := scenario_parse |}.

Definition name_required : validator :=
  fun r => if has "name" r then r else error "name" "is required" r.

Definition User : Model := mkModel "id" "/users" "/users" [name_required].

Definition always_name : validator := error "name" "is required".
Definition always_email : validator := error "email" "is required".
Definition Strict : Model :=
  mkModel "id" "/users" "/users" [always_name; always_email].

(** [new User({ name: 'a' })], [name] dirty, never saved. *)
Definition fresh : World :=
  mkWorld (mkRec {[ "name" := VStr "a" ]} {[ "name" ]} [] false) [].

(** [new User({ id: 5, name: 'a' })] after [name('b')]. *)
Definition persisted : World :=
  mkWorld (mkRec {[ "id" := VNum 5; "name" := VStr "b" ]} {[ "name" ]} [] false) [].

(** [new User()]: no attribute at all. *)
Definition blank : World := mkWorld (mkRec ∅ ∅ [] false) [].

(** A record that still carries the error of an earlier validation. *)
Definition stale : Rec :=
  mkRec {[ "name" := VStr "a" ]} ∅ [ErrorEntry "age" "is not a number"] false.

Definition http_200 : xhr := mkXhr 4 200 None EmptyString.
Definition http_201 : xhr :=
  mkXhr 4 201 (Some "application/json; charset=utf-8") reply_id_5.
Definition http_500 : xhr := mkXhr 4 500 (Some "text/html") "Internal Server Error".


(** A schema whose first validator may pass while the second never does. *)
Definition Mixed : Model :=
  mkModel "id" "/users" "/users" [name_required; always_email].

(** ** Bulk assignment *)

(** The methods this file puts on every record. *)
Definition proto_methods : list string :=
  ["error"; "isNew"; "primary"; "isValid"; "changed"; "validate"; "destroy";
   "save"; "update"; "url"; "request"; "set"; "get"; "has"; "toJSON"].

(** The other names under which a record holds a function without this
    file defining it: what the emitter mixes in and what the object
    inherits. *)
Class Heritage := { inherited_function : string -> bool }.

(** Why the loop of [set] stopped: the call threw, or the key names a
    method of the record other than an accessor, which the loop then calls
    with the value; what that call does is not followed here. *)
Inductive stop := Thrown (e : exn) | Method_called (key : string).

(** [set(attrs)]: [for (var key in attrs) this[key](attrs[key])].  The
    argument is given as the pairs the loop enumerates, in that order;
    [declared] holds the names for which the schema generated an accessor.
    Under a name that is neither an accessor nor another function of the
    record, [this[key]] cannot be called: the call throws and the loop stops
    there, the earlier assignments done.  The result is the record, with the
    reason when the loop stopped early. *)
Fixpoint set {H : Heritage} (declared : gset string)
    (a : list (string * value)) (r : Rec) : Rec * option stop :=
  match a with
  | [] => (r, None)
  | (key, v) :: a' =>
      if decide (key ∈ declared) then set declared a' (accessor_set key v r)
      else if bool_decide (key ∈ proto_methods) || inherited_function key
      then (r, Some (Method_called key))
      else (r, Some (Thrown TypeError))
  end.

(** ** Reading a response *)

(** What the handler computes from the content type: the header, or the
    empty string, up to its first semicolon, compared with
    [application/json]. *)
Definition json_typed (rq : xhr) : bool :=
  String.eqb "application/json"
    (before_semicolon (default EmptyString (contentType rq))).

(** Whether the handler gets past the parse: a response not typed as JSON
    is not parsed, one typed as JSON must carry a text that is JSON. *)
Definition readable {J : Json} (rq : xhr) : bool :=
  if json_typed rq then bool_decide (is_Some (parse (responseText rq)))
  else true.

(** [res.body] as the handler leaves it: assigned only when the response
    is typed as JSON and its text was parsed. *)
Definition response_body {J : Json} (rq : xhr) : option value :=
  if json_typed rq then parse (responseText rq) else None.

(** The value [save] hands to [primary] on a 2xx response: [res.body.id]
    when [res.body] is truthy, nothing otherwise. *)
Definition assigned_id {J : Json} (rq : xhr) : option value :=
  match response_body rq with
  | Some b => if truthy b then Some (prop b "id") else None
  | None => None
  end.



(** ** Contracts of validators *)

(** A validator whose only effect on the record is on [errors]. *)
Definition only_errors (v : validator) : Prop :=
  forall r, set_errors [] (v r) = set_errors [] r.

(** A validator that reports: it appends to [errors] the entries [g]
    finds in the record and changes nothing else, and what [g] finds does
    not depend on the errors already there. *)
Definition reports (v : validator) (g : Rec -> list error_entry) : Prop :=
  forall r,
    errors (v r) = errors r ++ g r /\
    set_errors [] (v r) = set_errors [] r /\
    forall es, g (set_errors es r) = g r.

(** A validator that leaves [destroyed] alone. *)
Definition keeps_destroyed (v : validator) : Prop :=
  forall r, destroyed (v r) = destroyed r.

(** The three persistence calls. *)
Inductive operation := Save | Update | Destroy.

Definition perform {J : Json} (m : Model) (o : operation)
    : option nat -> World -> World * outcome :=
  match o with
  | Save => save m
  | Update => update m
  | Destroy => destroy m
  end.

(** ** More of the scenario schema *)

(** A schema whose primary key is [_id]. *)
Definition Doc : Model := mkModel "_id" "/docs" "/docs" [].

(** The attribute names of [User]. *)
Definition user_attrs : gset string := {[ "id"; "name"; "email" ]}.

(** The functions a record gets from the emitter mixin and from
    [Object.prototype], and the [model] it points to. *)
Definition browser_heritage : Heritage :=
  {| inherited_function := fun key =>
       bool_decide (key ∈
         ["on"; "once"; "off"; "emit"; "listeners"; "hasListeners";
          "addEventListener"; "removeListener"; "removeAllListeners";
          "removeEventListener"; "model"; "constructor"; "toString";
          "toLocaleString"; "valueOf"; "hasOwnProperty"; "isPrototypeOf";
          "propertyIsEnumerable"]) |}.

Definition http_204 : xhr := mkXhr 4 204 None EmptyString.

(** * Properties *)

(** ** Status codes *)

Lemma to_int32_small z : - 2 ^ 31 <= z < 2 ^ 31 -> to_int32 z = z.
Proof.
  intros Hz. unfold to_int32.
  rewrite Z.mod_small by lia. lia.
Qed.

(** On the statuses a request can report, the handler's test
    [2 == (req.status / 100 | 0)] singles out 200..299. *)
Lemma status_class_2xx s :
  0 <= s < 65536 -> (to_int32 (Z.quot s 100) = 2 <-> 200 <= s <= 299).
Proof.
  intros Hs.
  assert (Hq : 0 <= Z.quot s 100 <= s).
  { rewrite Z.quot_div_nonneg by lia. split.
    - apply Z.div_pos; lia.
    - apply Z.div_le_upper_bound; lia. }
  rewrite to_int32_small by lia.
  rewrite Z.quot_div_nonneg by lia.
  split; intros Hc.
  - assert (H1 := Z.mul_div_le s 100 ltac:(lia)).
    assert (H2 := Z.mul_succ_div_gt s 100 ltac:(lia)). lia.
  - symmetry. apply (Z.div_unique s 100 2 (s - 200)); lia.
Qed.

Section handler.

Context {J : Json}.

(** A response that is not 2xx falls into the empty branch of the handler:
    the request callback is not called and nothing changes. *)
Lemma on_ready_failure fn rq w :
  completed rq -> ~ is_2xx rq -> on_ready fn rq w = w.
Proof.
  intros [_ Hs] Hn. unfold on_ready.
  destruct (4 =? readyState rq); [|done].
  destruct (Z.eqb_spec 2 (to_int32 (Z.quot (status rq) 100))) as [Heq|]; [|done].
  exfalso. apply Hn. by apply status_class_2xx.
Qed.

(** A 2xx response that can be read reaches the request callback with no
    error, with a parsed body exactly when the content type is
    [application/json]. *)
Lemma on_ready_success fn rq w :
  completed rq -> is_2xx rq -> readable rq = true ->
  on_ready fn rq w = fn None (mkResponse rq (response_body rq)) w.
Proof.
  intros [Hr Hs] Hok. unfold on_ready, readable, response_body, json_typed.
  assert (Hc : to_int32 (Z.quot (status rq) 100) = 2) by by apply status_class_2xx.
  cbv zeta. rewrite Hr, Hc, !Z.eqb_refl.
  destruct (String.eqb _ _); [|done].
  destruct (parse (responseText rq)); [done|].
  intros Hb. apply bool_decide_eq_true in Hb. by destruct Hb.
Qed.

(** A 2xx response typed as JSON whose text is not JSON stops the handler
    at the parse: the callback is not called. *)
Lemma on_ready_unread fn rq w :
  completed rq -> is_2xx rq -> readable rq = false ->
  on_ready fn rq w = observe (Uncaught SyntaxError) w.
Proof.
  intros [Hr Hs] Hok. unfold on_ready, readable, json_typed.
  assert (Hc : to_int32 (Z.quot (status rq) 100) = 2) by by apply status_class_2xx.
  cbv zeta. rewrite Hr, Hc, !Z.eqb_refl.
  destruct (String.eqb _ _); [|done].
  destruct (parse (responseText rq)) as [b|]; [|done].
  intros Hb. apply bool_decide_eq_false in Hb. destruct Hb. by exists b.
Qed.

End handler.

(** ** Effects on the record *)

Lemma invoke_self f err w : self (invoke f err w) = self w.
Proof. by destruct f. Qed.

Lemma emit_self event w : self (emit event w) = self w.
Proof. done. Qed.

Lemma changed_empty r : dirty r = ∅ -> changed r = None.
Proof. intros Hd. unfold changed. by rewrite Hd, size_empty. Qed.

(** ** The store *)

(** C3: a record is new exactly when the attribute named by the schema's
    primary key reads as [null] or [undefined] in [attrs]; an attribute that
    was never stored reads as [undefined]. *)
Theorem isNew_iff_primary_absent (m : Model) (r : Rec) :
  (isNew m r = true <->
   get (primaryKey m) r = VNull \/ get (primaryKey m) r = VUndefined) /\
  (isNew m r = true <->
   attrs r !! primaryKey m = None \/
   attrs r !! primaryKey m = Some VNull \/
   attrs r !! primaryKey m = Some VUndefined).
Proof.
  assert (Hget : isNew m r = true <->
            get (primaryKey m) r = VNull \/ get (primaryKey m) r = VUndefined).
  { unfold isNew, has.
    destruct (get (primaryKey m) r) eqn:Hg; simpl; split;
      try (intros [|]; congruence); try congruence; auto. }
  split; [exact Hget|].
  rewrite Hget. unfold get.
  destruct (attrs r !! primaryKey m) as [v|]; simpl.
  - split.
    + intros [->| ->]; auto.
    + intros [|[|]]; [congruence | left | right]; congruence.
  - split; auto.
Qed.

(** C9: with the primary key stored as [id] (neither [null] nor
    [undefined]), [url()] is the base path, a slash and [id]; [url(suffix)]
    appends a slash and the suffix. *)
Theorem url_of_persisted (m : Model) (r : Rec) (id : value) :
  attrs r !! primaryKey m = Some id ->
  not_nullish id = true ->
  isNew m r = false /\
  url m None r = base m +:+ "/" +:+ to_string id /\
  forall suffix : string,
    url m (Some (VStr suffix)) r =
      base m +:+ "/" +:+ to_string id +:+ "/" +:+ suffix.
Proof.
  intros Hid Hnn.
  assert (Hp : primary_get m r = id).
  { unfold primary_get, accessor_get, get. by rewrite Hid. }
  repeat split.
  - unfold isNew, has, get. rewrite Hid. simpl. by rewrite Hnn.
  - unfold url. by rewrite Hp.
  - intros suffix. unfold url. by rewrite Hp.
Qed.

Lemma url_of_persisted_witness :
  url User None (self persisted) = "/users/5" /\
  url User (Some (VStr "edit")) (self persisted) = "/users/5/edit".
Proof.
  destruct (url_of_persisted User (self persisted) (VNum 5)) as (_ & H0 & H1);
    [reflexivity | reflexivity |].
  split; [exact H0 | exact (H1 "edit")].
Defined.

(** Creating a record: validation passes, the POST is answered 201 with an
    [id] of 5; the record takes the key, is clean, and [save] was emitted
    once before the callback ran without error. *)
Example save_of_fresh_record :
  let w := deliver (save (J := scenario_json) User (Some 7%nat) fresh) http_201 in
  primary_get User (self w) = VNum 5 /\
  isNew User (self w) = false /\
  changed (self w) = None /\
  emitted (trace w) = ["save"] /\
  callbacks (trace w) = [(7%nat, None)].
Proof. vm_compute. repeat split. Qed.

(** ** Validation *)

Lemma run_validators_errors (vs : list validator) (es : list error_entry) :
  Forall2 registers vs es ->
  forall r, errors (fold_left (fun self fn => fn self) vs r) = errors r ++ es.
Proof.
  induction 1 as [|v e vs es Hv _ IH]; intros r; simpl.
  - by rewrite app_nil_r.
  - rewrite IH, Hv. by rewrite <- app_assoc.
Qed.

Lemma set_errors_eta (r : Rec) : set_errors (errors r) (set_errors [] r) = r.
Proof. by destruct r. Qed.

Lemma reports_same (v : validator) (g : Rec -> list error_entry) (r r' : Rec) :
  reports v g -> set_errors [] r = set_errors [] r' -> g r = g r'.
Proof.
  intros Hv Hr.
  rewrite <- (set_errors_eta r), <- (set_errors_eta r'), Hr.
  destruct (Hv (set_errors [] r')) as (_ & _ & Hg). by rewrite !Hg.
Qed.

Lemma run_validators_reports (vs : list validator)
    (gs : list (Rec -> list error_entry)) :
  Forall2 reports vs gs ->
  forall r,
    errors (fold_left (fun self fn => fn self) vs r) =
      errors r ++ concat (map (fun g => g r) gs) /\
    set_errors [] (fold_left (fun self fn => fn self) vs r) = set_errors [] r.
Proof.
  induction 1 as [|v g vs gs Hv Hvs IH]; intros r; simpl.
  - by rewrite app_nil_r.
  - destruct (IH (v r)) as [He Hs]. destruct (Hv r) as (Hev & Hsv & _).
    split; [|by rewrite Hs].
    rewrite He, Hev, <- app_assoc. do 2 f_equal.
    clear IH He Hs. induction Hvs as [|v' g' vs' gs' Hv' _ IH']; simpl; [done|].
    rewrite IH'. f_equal. by apply (reports_same v').
Qed.

(** C6: [validate()] empties [errors] and then runs every validator, each
    on the record its predecessors left, in the order of registration and
    whether they found something or not.  With validators that report,
    [errors] ends up as what the first finds, then what the second finds,
    and so on, nothing for those that pass; with validators that register
    one error each it holds exactly those errors in that order, two for
    two validators. *)
Theorem validate_runs_all (m : Model) (r : Rec) :
  (forall vs1 v vs2, validators m = vs1 ++ v :: vs2 ->
     validate m r =
       fold_left (fun self fn => fn self) vs2
         (v (fold_left (fun self fn => fn self) vs1 (set_errors [] r)))) /\
  (forall gs, Forall2 reports (validators m) gs ->
     errors (validate m r) = concat (map (fun g => g r) gs)) /\
  (forall es, Forall2 registers (validators m) es ->
     errors (validate m r) = es /\
     length (errors (validate m r)) = length (validators m)) /\
  (forall v1 v2 e1 e2, validators m = [v1; v2] ->
     registers v1 e1 -> registers v2 e2 ->
     errors (validate m r) = [e1; e2] /\
     length (errors (validate m r)) = 2%nat).
Proof.
  split; [|split; [|split]].
  - intros vs1 v vs2 Hvs. unfold validate. rewrite Hvs.
    by rewrite fold_left_app.
  - intros gs Hgs. unfold validate.
    destruct (run_validators_reports _ _ Hgs (set_errors [] r)) as [He _].
    rewrite He. simpl. f_equal.
    clear He. induction Hgs as [|v g vs gs Hv _ IH]; simpl; [done|].
    rewrite IH. f_equal. by apply (reports_same v).
  - intros es Hreg. unfold validate.
    rewrite (run_validators_errors _ _ Hreg). simpl.
    split; [done|]. symmetry. by eapply Forall2_length.
  - intros v1 v2 e1 e2 Hvs H1 H2. unfold validate. rewrite Hvs. simpl.
    by rewrite H2, H1.
Qed.

Lemma name_required_reports :
  reports name_required
    (fun r => if has "name" r then [] else [ErrorEntry "name" "is required"]).
Proof.
  intros r. unfold name_required.
  split; [|split; [|done]]; destruct (has "name" r); simpl;
    by rewrite ?app_nil_r.
Qed.

Lemma always_email_reports :
  reports always_email (fun _ => [ErrorEntry "email" "is required"]).
Proof. done. Qed.

Lemma validate_runs_all_witness :
  errors (validate Strict stale) =
    [ErrorEntry "name" "is required"; ErrorEntry "email" "is required"] /\
  length (errors (validate Strict stale)) = 2%nat /\
  errors (validate Mixed stale) = [ErrorEntry "email" "is required"].
Proof.
  destruct (validate_runs_all Strict stale) as (_ & _ & _ & Htwo).
  destruct (Htwo always_name always_email
              (ErrorEntry "name" "is required")
              (ErrorEntry "email" "is required") eq_refl)
    as [He Hl]; [done | done |].
  split; [exact He|]. split; [exact Hl|].
  destruct (validate_runs_all Mixed stale) as (_ & Hrep & _).
  apply (Hrep [(fun r => if has "name" r then []
                         else [ErrorEntry "name" "is required"]);
               (fun _ => [ErrorEntry "email" "is required"])]).
  constructor; [apply name_required_reports|].
  constructor; [apply always_email_reports | constructor].
Defined.

(** ** Destroy *)

Section destroy.

Context {J : Json}.

(** C7: on a new record [destroy(cb)] calls [cb] once, with the error
    [not saved], sends no request and leaves none outstanding; the record
    is untouched. *)
Theorem destroy_new_rejected (m : Model) (cb : nat) (w : World) :
  isNew m (self w) = true ->
  destroy m (Some cb) w =
    (mkWorld (self w)
       (trace w ++ [Called cb (Some (Error "not saved")) (self w)]),
     Returned) /\
  callbacks (trace (fst (destroy m (Some cb) w))) =
    callbacks (trace w) ++ [(cb, Some (Error "not saved"))] /\
  requests (trace (fst (destroy m (Some cb) w))) = requests (trace w).
Proof.
  intros Hnew.
  assert (Hd : destroy m (Some cb) w =
    (mkWorld (self w)
       (trace w ++ [Called cb (Some (Error "not saved")) (self w)]),
     Returned)).
  { unfold destroy. by rewrite Hnew. }
  rewrite Hd. simpl. split; [done|].
  unfold callbacks, requests. rewrite !omap_app. simpl.
  split; [done | by rewrite app_nil_r].
Qed.



End destroy.

Lemma destroy_new_rejected_witness :
  isNew User (self fresh) = true /\
  callbacks (trace (fst (destroy (J := scenario_json) User (Some 7%nat) fresh))) =
    [(7%nat, Some (Error "not saved"))] /\
  requests (trace (fst (destroy (J := scenario_json) User (Some 7%nat) fresh))) = [].
Proof.
  split; [reflexivity|].
  destruct (destroy_new_rejected (J := scenario_json) User 7%nat fresh)
    as (_ & Hc & Hr); [reflexivity|].
  split; [exact Hc | exact Hr].
Defined.




(** ** Save and update *)

Lemma run_validators_dirty (vs : list validator) :
  Forall keeps_dirty vs ->
  forall r, dirty (fold_left (fun self fn => fn self) vs r) = dirty r.
Proof.
  induction 1 as [|v vs Hv _ IH]; intros r; simpl; [done|].
  by rewrite IH, Hv.
Qed.

Lemma validate_dirty (m : Model) (r : Rec) :
  Forall keeps_dirty (validators m) -> dirty (validate m r) = dirty r.
Proof.
  intros Hk. unfold validate. by rewrite run_validators_dirty.
Qed.

Lemma requests_snoc_called t id err seen :
  requests (t ++ [Called id err seen]) = requests t.
Proof. unfold requests. rewrite omap_app. simpl. by rewrite app_nil_r. Qed.

Lemma requests_invoke f err w :
  requests (trace (invoke f err w)) = requests (trace w).
Proof. destruct f; simpl; [done | apply requests_snoc_called]. Qed.

Lemma deliver_inert (p : World * outcome) (d : gset string) :
  inert_on_failure p ->
  dirty (self (fst p)) = d ->
  forall rq, completed rq -> ~ is_2xx rq -> dirty (self (deliver p rq)) = d.
Proof.
  intros (h & Hp & Hh) Hd rq Hc Hno.
  destruct p as [w o]. simpl in Hp, Hd. subst o. simpl.
  by rewrite Hh.
Qed.

Section persistence.

Context {J : Json}.

Variable m : Model.



Lemma update_invalid fn w :
  Forall keeps_dirty (validators m) ->
  snd (isValid m (self w)) = false ->
  snd (update m fn w) = Returned /\
  requests (trace (fst (update m fn w))) = requests (trace w) /\
  dirty (self (fst (update m fn w))) = dirty (self w).
Proof.
  intros Hk. unfold isValid. cbn [snd]. intros Hv.
  unfold update, isValid. rewrite Hv. cbn [negb fst snd].
  rewrite requests_invoke, invoke_self. simpl.
  by rewrite validate_dirty.
Qed.

Lemma update_valid_inert fn w :
  Forall keeps_dirty (validators m) ->
  snd (isValid m (self w)) = true ->
  inert_on_failure (update m fn w) /\
  dirty (self (fst (update m fn w))) = dirty (self w).
Proof.
  intros Hk. unfold isValid. cbn [snd]. intros Hv.
  unfold update, isValid. rewrite Hv. cbn [negb]. unfold request. split.
  - eexists. split; [reflexivity|].
    intros rq w' Hc Hno. by apply on_ready_failure.
  - simpl. by rewrite validate_dirty.
Qed.

Lemma save_invalid fn w :
  Forall keeps_dirty (validators m) ->
  snd (isValid m (self w)) = false ->
  snd (save m fn w) = Returned /\
  requests (trace (fst (save m fn w))) = requests (trace w) /\
  dirty (self (fst (save m fn w))) = dirty (self w).
Proof.
  intros Hk Hv. unfold save. destruct (isNew m (self w)); cbn [negb].
  - revert Hv. unfold isValid. cbn [snd]. intros Hv. rewrite Hv. cbn [negb fst snd].
    rewrite requests_invoke, invoke_self. simpl.
    by rewrite validate_dirty.
  - by apply update_invalid.
Qed.

Lemma save_valid_inert fn w :
  Forall keeps_dirty (validators m) ->
  snd (isValid m (self w)) = true ->
  inert_on_failure (save m fn w) /\
  dirty (self (fst (save m fn w))) = dirty (self w).
Proof.
  intros Hk Hv. unfold save. destruct (isNew m (self w)); cbn [negb].
  - revert Hv. unfold isValid. cbn [snd]. intros Hv. rewrite Hv. cbn [negb].
    unfold request. split.
    + eexists. split; [reflexivity|].
      intros rq w' Hc Hno. by apply on_ready_failure.
    + simpl. by rewrite validate_dirty.
  - by apply update_valid_inert.
Qed.


(** C5: with validators that leave the dirty marks alone, a [save] or
    [update] that fails keeps the dirty set.  When validation fails the call
    returns without sending a request and the dirty set is the one before the
    call; when validation passes the request is sent with the dirty set
    unchanged, and a response that is not 2xx changes nothing at all. *)
Theorem failure_keeps_dirty (fn : option nat) (w : World) :
  Forall keeps_dirty (validators m) ->
  (snd (isValid m (self w)) = false ->
     (snd (save m fn w) = Returned /\
      requests (trace (fst (save m fn w))) = requests (trace w) /\
      dirty (self (fst (save m fn w))) = dirty (self w)) /\
     (snd (update m fn w) = Returned /\
      requests (trace (fst (update m fn w))) = requests (trace w) /\
      dirty (self (fst (update m fn w))) = dirty (self w))) /\
  (snd (isValid m (self w)) = true ->
     (inert_on_failure (save m fn w) /\
      forall rq, completed rq -> ~ is_2xx rq ->
        dirty (self (deliver (save m fn w) rq)) = dirty (self w)) /\
     (inert_on_failure (update m fn w) /\
      forall rq, completed rq -> ~ is_2xx rq ->
        dirty (self (deliver (update m fn w) rq)) = dirty (self w))).
Proof.
  intros Hk. split; intros Hv; split.
  - by apply save_invalid.
  - by apply update_invalid.
  - destruct (save_valid_inert fn w Hk Hv) as [Hin Hd].
    split; [exact Hin|]. by apply deliver_inert.
  - destruct (update_valid_inert fn w Hk Hv) as [Hin Hd].
    split; [exact Hin|]. by apply deliver_inert.
Qed.

End persistence.


Lemma name_required_keeps_dirty : Forall keeps_dirty (validators User).
Proof.
  repeat constructor. intros r. unfold name_required.
  by destruct (has "name" r).
Qed.

Lemma failure_keeps_dirty_witness :
  Forall keeps_dirty (validators User) /\
  snd (isValid User (self blank)) = false /\
  snd (save (J := scenario_json) User (Some 7%nat) blank) = Returned /\
  dirty (self (fst (save (J := scenario_json) User (Some 7%nat) blank))) =
    dirty (self blank) /\
  snd (isValid User (self persisted)) = true /\
  dirty (self (deliver (update (J := scenario_json) User (Some 7%nat) persisted)
                 http_500)) = dirty (self persisted).
Proof.
  split; [exact name_required_keeps_dirty|].
  split; [reflexivity|].
  destruct (failure_keeps_dirty (J := scenario_json) User (Some 7%nat) blank
              name_required_keeps_dirty) as [Hbad _].
  destruct (Hbad eq_refl) as [(Hret & _ & Hd) _].
  split; [exact Hret|]. split; [exact Hd|].
  split; [reflexivity|].
  destruct (failure_keeps_dirty (J := scenario_json) User (Some 7%nat) persisted
              name_required_keeps_dirty) as [_ Hok].
  destruct (Hok eq_refl) as [_ [_ Hd']].
  apply Hd'.
  - unfold completed. simpl. lia.
  - unfold is_2xx. simpl. lia.
Defined.

(** ** Where the code departs from its documentation *)

(** C1: a [save], an [update] and a [destroy] that each sent their request
    and got status 500 back: primary key and dirty set are as before, but
    the callback is never called, neither with an error nor without. *)
Lemma non_2xx_never_calls_back :
  let saved := deliver (save (J := scenario_json) User (Some 7%nat) fresh) http_500 in
  let updated := deliver (update (J := scenario_json) User (Some 7%nat) persisted) http_500 in
  let destroyed := deliver (destroy (J := scenario_json) User (Some 7%nat) persisted) http_500 in
  (requests (trace saved) = [("POST", "/users", flat_stringify (attrs (self fresh)))] /\
   callbacks (trace saved) = [] /\
   primary_get User (self saved) = primary_get User (self fresh) /\
   dirty (self saved) = dirty (self fresh)) /\
  (requests (trace updated) =
     [("PUT", "/users/5", flat_stringify (attrs (self persisted)))] /\
   callbacks (trace updated) = [] /\
   primary_get User (self updated) = primary_get User (self persisted) /\
   dirty (self updated) = dirty (self persisted)) /\
  (requests (trace destroyed) =
     [("DELETE", "/users/5", flat_stringify (attrs (self persisted)))] /\
   callbacks (trace destroyed) = [] /\
   primary_get User (self destroyed) = primary_get User (self persisted) /\
   dirty (self destroyed) = dirty (self persisted)).
Proof. cbv zeta. repeat apply conj; vm_compute; reflexivity. Qed.

(** C2: [save] on a record that is not new goes through [update]; after the
    2xx response the only event emitted is [update], and no [save] event
    follows, although the documentation of [save] lists [save] on updates
    and saves. *)
Lemma save_of_persisted_emits_update_only :
  isNew User (self persisted) = false /\
  save (J := scenario_json) User (Some 7%nat) persisted =
    update (J := scenario_json) User (Some 7%nat) persisted /\
  emitted (trace (deliver (save (J := scenario_json) User (Some 7%nat) persisted)
                    http_200)) = ["update"] /\
  callbacks (trace (deliver (save (J := scenario_json) User (Some 7%nat) persisted)
                      http_200)) = [(7%nat, None)].
Proof. repeat split. Qed.

(** * Further properties of the prototype *)

(** ** Reading and writing attributes *)

(** X1: for an attribute stored in [attrs], [get] returns the stored value
    and [has] tells whether that value is other than [null] and
    [undefined]; a stored [0], [false] or empty string is present although
    it is falsy. *)
Theorem has_of_stored (a : string) (r : Rec) (v : value) :
  attrs r !! a = Some v ->
  get a r = v /\
  (has a r = true <-> v <> VNull /\ v <> VUndefined) /\
  (v = VNum 0 \/ v = VBool false \/ v = VStr EmptyString ->
     truthy v = false /\ has a r = true).
Proof.
  intros Hv. unfold has, get. rewrite Hv. simpl. split; [done|]. split.
  - split.
    + intros Hn. by destruct v.
    + intros [Hn Hu]. by destruct v.
  - intros [->|[->| ->]]; done.
Qed.

Lemma has_of_stored_witness :
  get "id" (self persisted) = VNum 5 /\ has "id" (self persisted) = true.
Proof.
  destruct (has_of_stored "id" (self persisted) (VNum 5) eq_refl)
    as (Hg & Hh & _).
  split; [exact Hg|]. by apply Hh.
Defined.

(** X2: [changed()] is [false] exactly when no attribute is dirty;
    otherwise it returns the dirty set itself, which then has a member. *)
Theorem changed_reports_dirty (r : Rec) :
  (changed r = None <-> dirty r = ∅) /\
  (forall d, changed r = Some d -> d = dirty r /\ exists k, k ∈ d).
Proof.
  unfold changed. split.
  - destruct (size (dirty r)) eqn:Hs.
    + split; [|done]. intros _. by apply size_empty_iff, leibniz_equiv in Hs.
    + split; [done|]. intros He. rewrite He, size_empty in Hs. done.
  - intros d. destruct (size (dirty r)) eqn:Hs; [done|].
    intros [= <-]. split; [done|].
    apply size_pos_elem_of. lia.
Qed.

(** X3: [error] returns the record, so calls chain: a sequence of calls
    appends its entries to [errors] in call order and touches nothing
    else. *)
Theorem error_chain (es : list error_entry) (r : Rec) :
  let r' := fold_left (fun self e => error (attr e) (message e) self) es r in
  errors r' = errors r ++ es /\
  attrs r' = attrs r /\ dirty r' = dirty r /\ destroyed r' = destroyed r.
Proof.
  revert r. induction es as [|[a msg] es IH]; intros r; simpl.
  - by rewrite app_nil_r.
  - destruct (IH (error a msg r)) as (He & Ha & Hd & Hx).
    rewrite He, Ha, Hd, Hx. simpl. by rewrite <- app_assoc.
Qed.

Lemma primary_set_reads (m : Model) (val : value) (r : Rec) :
  primary_get m (primary_set m val r) = val /\
  isNew m (primary_set m val r) = negb (not_nullish val).
Proof.
  unfold primary_get, primary_set, accessor_get, accessor_set, isNew, has, get.
  simpl. by rewrite lookup_insert_eq.
Qed.

(** X4: [primary(val)] then [primary()] gives [val] back.  The write goes to
    the attribute the schema names as primary key and to no other; the key
    is marked dirty; and afterwards the record is new exactly when [val] is
    [null] or [undefined]. *)
Theorem primary_set_get (m : Model) (val : value) (r : Rec) :
  primary_get m (primary_set m val r) = val /\
  isNew m (primary_set m val r) = negb (not_nullish val) /\
  (forall a, a <> primaryKey m -> get a (primary_set m val r) = get a r) /\
  primaryKey m ∈ dirty (primary_set m val r).
Proof.
  unfold primary_get, primary_set, accessor_get, accessor_set, isNew, has, get.
  simpl. rewrite lookup_insert_eq. simpl. repeat split.
  - intros a Ha. by rewrite lookup_insert_ne.
  - by apply elem_of_union_l, elem_of_singleton.
Qed.

(** ** Bulk assignment *)

Section bulk.

Context {H : Heritage}.

Lemma set_declared (declared : gset string) (a : list (string * value)) :
  Forall (fun kv => kv.1 ∈ declared) a ->
  forall r,
    set declared a r =
      (fold_left (fun self kv => accessor_set kv.1 kv.2 self) a r, None).
Proof.
  induction 1 as [|[k v] a Hk _ IH]; intros r; simpl; [done|].
  simpl in Hk. rewrite decide_True by done. apply IH.
Qed.

Lemma assign_all_other (a : list (string * value)) (k : string) :
  k ∉ a.*1 ->
  forall r,
    get k (fold_left (fun self kv => accessor_set kv.1 kv.2 self) a r) = get k r.
Proof.
  induction a as [|[k0 v0] a IH]; intros Hk r; simpl; [done|].
  simpl in Hk. apply not_elem_of_cons in Hk as [Hne Hk].
  rewrite IH by done. unfold get, accessor_set. simpl.
  by rewrite lookup_insert_ne.
Qed.

Lemma assign_all_frame (a : list (string * value)) (r : Rec) :
  let r' := fold_left (fun self kv => accessor_set kv.1 kv.2 self) a r in
  dirty r' = list_to_set a.*1 ∪ dirty r /\
  errors r' = errors r /\ destroyed r' = destroyed r.
Proof.
  revert r. induction a as [|[k v] a IH]; intros r; simpl.
  - split; [by rewrite (left_id_L ∅ (∪)) | done].
  - destruct (IH (accessor_set k v r)) as (Hd & He & Hx).
    rewrite Hd, He, Hx. simpl. split; [|done].
    rewrite (assoc_L (∪)). f_equal. apply (comm_L (∪)).
Qed.

(** X5: [set(attrs)] with distinct keys that all have an accessor returns
    normally; every pair reads back through [get], attributes not mentioned
    keep their value, exactly the keys given are added to the dirty marks,
    and [errors] and [destroyed] are untouched.  With no pair at all the
    record is returned as it is. *)
Theorem set_then_get (declared : gset string) (a : list (string * value))
    (r : Rec) :
  Forall (fun kv => kv.1 ∈ declared) a ->
  NoDup a.*1 ->
  snd (set declared a r) = None /\
  (forall k v, (k, v) ∈ a -> get k (fst (set declared a r)) = v) /\
  (forall k, k ∉ a.*1 -> get k (fst (set declared a r)) = get k r) /\
  dirty (fst (set declared a r)) = list_to_set a.*1 ∪ dirty r /\
  errors (fst (set declared a r)) = errors r /\
  destroyed (fst (set declared a r)) = destroyed r /\
  (a = [] -> fst (set declared a r) = r).
Proof.
  intros Hdecl Hnd. rewrite (set_declared _ _ Hdecl). simpl.
  split; [done|]. split; [|split; [|split; [|split; [|split]]]].
  - clear Hdecl. revert r. induction a as [|[k0 v0] a IH]; intros r k v Hin.
    + by apply elem_of_nil in Hin.
    + simpl in Hnd. apply NoDup_cons in Hnd as [Hk0 Hnd].
      apply elem_of_cons in Hin as [[= -> ->]|Hin]; simpl.
      * rewrite assign_all_other by done.
        unfold get, accessor_set. simpl. by rewrite lookup_insert_eq.
      * by apply IH.
  - intros k Hk. by apply assign_all_other.
  - apply assign_all_frame.
  - apply assign_all_frame.
  - apply assign_all_frame.
  - by intros ->.
Qed.

(** X6: [set(attrs)] stops at the first key under which the record holds
    no function, neither an accessor nor a method of its own nor an
    inherited one: the call throws a [TypeError], the pairs before that key
    have been assigned and the pairs after it have not. *)
Theorem set_unknown_key_throws (declared : gset string)
    (before after : list (string * value)) (key : string) (v : value)
    (r : Rec) :
  Forall (fun kv => kv.1 ∈ declared) before ->
  key ∉ declared ->
  key ∉ proto_methods ->
  inherited_function key = false ->
  set declared (before ++ (key, v) :: after) r =
    (fst (set declared before r), Some (Thrown TypeError)).
Proof.
  intros Hb Hk Hm Hi. revert r.
  induction Hb as [|[k0 v0] b Hk0 _ IH]; intros r; simpl.
  - rewrite decide_False by done. rewrite bool_decide_eq_false_2 by done.
    by rewrite Hi.
  - simpl in Hk0. rewrite !decide_True by done. apply IH.
Qed.

End bulk.

Lemma set_then_get_witness :
  let r := self persisted in
  let r' := fst (set (H := browser_heritage) user_attrs
                   [("name", VStr "c"); ("email", VStr "c@d.e")] r) in
  get "name" r' = VStr "c" /\ get "email" r' = VStr "c@d.e" /\
  get "id" r' = VNum 5.
Proof.
  destruct (set_then_get (H := browser_heritage) user_attrs
              [("name", VStr "c"); ("email", VStr "c@d.e")] (self persisted))
    as (_ & Hin & Hout & _).
  - repeat constructor; vm_compute; done.
  - apply (bool_decide_unpack _). vm_compute. exact I.
  - split; [|split].
    + apply Hin. repeat constructor.
    + apply Hin. repeat constructor.
    + rewrite Hout; [reflexivity|].
      apply (bool_decide_unpack _). vm_compute. exact I.
Defined.

Lemma set_unknown_key_throws_witness :
  let p := set (H := browser_heritage) user_attrs
             [("name", VStr "c"); ("age", VNum 30); ("email", VStr "e")]
             (self persisted) in
  snd p = Some (Thrown TypeError) /\
  get "name" (fst p) = VStr "c" /\
  get "email" (fst p) = VUndefined.
Proof.
  assert (Hname : Forall (fun kv : string * value => kv.1 ∈ user_attrs)
                    [("name", VStr "c")]).
  { repeat constructor; vm_compute; done. }
  assert (Hage : "age" ∉ user_attrs) by (vm_compute; done).
  assert (Hm : "age" ∉ proto_methods).
  { apply (bool_decide_unpack _). vm_compute. exact I. }
  assert (Heq := set_unknown_key_throws (H := browser_heritage) user_attrs
                   [("name", VStr "c")] [("email", VStr "e")] "age" (VNum 30)
                   (self persisted) Hname Hage Hm eq_refl).
  cbn [app] in Heq. cbv zeta. rewrite Heq. repeat split.
Defined.

(** ** Validation runs *)

Lemma run_validators_only_errors (vs : list validator) :
  Forall only_errors vs ->
  forall r,
    set_errors [] (fold_left (fun self fn => fn self) vs r) = set_errors [] r.
Proof.
  induction 1 as [|v vs Hv _ IH]; intros r; simpl; [done|].
  by rewrite IH, Hv.
Qed.

(** X7: a validation run starts from an empty [errors], so what was
    registered before the run, by an earlier run or by a direct call of
    [error], has no influence on the errors it leaves nor on the verdict of
    [isValid]. *)
Theorem validate_forgets_errors (m : Model) (es : list error_entry) (r : Rec) :
  validate m (set_errors es r) = validate m r /\
  isValid m (set_errors es r) = isValid m r /\
  (forall a msg, isValid m (error a msg r) = isValid m r).
Proof.
  assert (Hv : forall es', validate m (set_errors es' r) = validate m r) by done.
  split; [apply Hv|]. split.
  - unfold isValid. by rewrite Hv.
  - intros a msg. unfold isValid, error. by rewrite Hv.
Qed.

(** X8: when the validators act on [errors] only, a validation run leaves
    attributes, dirty marks and [destroyed] as they were, and running
    [isValid] a second time gives the same errors and the same verdict. *)
Theorem isValid_twice (m : Model) (r : Rec) :
  Forall only_errors (validators m) ->
  attrs (validate m r) = attrs r /\
  dirty (validate m r) = dirty r /\
  destroyed (validate m r) = destroyed r /\
  isValid m (fst (isValid m r)) = isValid m r.
Proof.
  intros Hv.
  assert (He : set_errors [] (validate m r) = set_errors [] r).
  { unfold validate. by rewrite run_validators_only_errors. }
  assert (Ha : attrs (set_errors [] (validate m r)) = attrs r) by by rewrite He.
  assert (Hd : dirty (set_errors [] (validate m r)) = dirty r) by by rewrite He.
  assert (Hx : destroyed (set_errors [] (validate m r)) = destroyed r)
    by by rewrite He.
  repeat split; [exact Ha | exact Hd | exact Hx |].
  unfold isValid. simpl.
  assert (Hvv : validate m (validate m r) = validate m r).
  { unfold validate at 1. rewrite He. done. }
  by rewrite Hvv.
Qed.

Lemma name_required_only_errors : Forall only_errors (validators User).
Proof.
  repeat constructor. intros r. unfold name_required.
  by destruct (has "name" r).
Qed.

Lemma isValid_twice_witness :
  isValid User (fst (isValid User (self blank))) = isValid User (self blank) /\
  snd (isValid User (self blank)) = false.
Proof.
  destruct (isValid_twice User (self blank) name_required_only_errors)
    as (_ & _ & _ & H2).
  split; [exact H2 | reflexivity].
Defined.

(** ** The response handler *)

Lemma before_semicolon_inv (s p : string) :
  before_semicolon s = p -> s = p \/ exists t, s = p +:+ ";" +:+ t.
Proof.
  revert p. induction s as [|c s IH]; intros p; simpl.
  - intros <-. by left.
  - destruct (Ascii.eqb_spec c ";"%char) as [->|Hc].
    + intros <-. right. by exists s.
    + destruct p as [|c' p]; [done|]. intros [= <- Hp].
      destruct (IH p Hp) as [->|(t & ->)]; [by left|].
      right. by exists t.
Qed.

Lemma before_semicolon_params (p t : string) :
  before_semicolon p = p -> before_semicolon (p +:+ ";" +:+ t) = p.
Proof.
  induction p as [|c p IH]; simpl; [done|].
  destruct (Ascii.eqb c ";"%char); [done|].
  intros [= Hp]. by rewrite IH.
Qed.

(** X9: a response counts as JSON exactly when its content type is
    [application/json], alone or followed by a semicolon and anything: the
    parameters are ignored, the comparison is exact otherwise, and a
    response without content type is not JSON. *)
Theorem json_typed_iff (rq : xhr) :
  json_typed rq = true <->
  contentType rq = Some "application/json" \/
  exists params, contentType rq = Some ("application/json;" +:+ params).
Proof.
  unfold json_typed. rewrite String.eqb_eq. split.
  - intros Hb. symmetry in Hb. apply before_semicolon_inv in Hb.
    destruct (contentType rq) as [s|]; simpl in Hb.
    + destruct Hb as [->|(t & ->)]; [by left|]. right. by exists t.
    + destruct Hb as [Hb|(t & Hb)]; discriminate.
  - intros [->|(t & ->)]; simpl; [done|].
    symmetry. by apply (before_semicolon_params "application/json" t).
Qed.

Section handler_cases.

Context {J : Json}.

(** X10: [request] sends one request carrying the serialised attributes
    and leaves a handler that ignores every state change before completion
    and every completed response whose status is outside 200..299.  On a
    2xx response not typed as JSON it calls back without error and without
    body; on one typed as JSON it parses the text first, and calls back
    without error with the parsed body, or, when the text is not JSON, lets
    the [SyntaxError] escape and calls nothing. *)
Theorem request_handler_cases (method u : string)
    (fn : option js_error -> response -> World -> World) (w : World) :
  exists h,
    request method u fn w =
      (mkWorld (self w) (trace w ++ [Sent method u (stringify (attrs (self w)))]),
       Pending h) /\
    (forall rq w', readyState rq <> 4 -> h rq w' = w') /\
    (forall rq w', completed rq -> ~ is_2xx rq -> h rq w' = w') /\
    (forall rq w', completed rq -> is_2xx rq -> json_typed rq = false ->
       h rq w' = fn None (mkResponse rq None) w') /\
    (forall rq w' b, completed rq -> is_2xx rq -> json_typed rq = true ->
       parse (responseText rq) = Some b ->
       h rq w' = fn None (mkResponse rq (Some b)) w') /\
    (forall rq w', completed rq -> is_2xx rq -> json_typed rq = true ->
       parse (responseText rq) = None ->
       h rq w' = mkWorld (self w') (trace w' ++ [Uncaught SyntaxError])).
Proof.
  exists (on_ready fn). split; [done|]. split; [|split; [|split; [|split]]].
  - intros rq w' Hr. unfold on_ready.
    destruct (Z.eqb_spec 4 (readyState rq)); [congruence | done].
  - intros rq w' Hc Hno. by apply on_ready_failure.
  - intros rq w' Hc Hok Hj. rewrite on_ready_success; try done.
    + unfold response_body. by rewrite Hj.
    + unfold readable. by rewrite Hj.
  - intros rq w' b Hc Hok Hj Hb. rewrite on_ready_success; try done.
    + unfold response_body. by rewrite Hj, Hb.
    + unfold readable. rewrite Hj, Hb. by apply bool_decide_eq_true.
  - intros rq w' Hc Hok Hj Hb. rewrite on_ready_unread; try done.
    unfold readable. rewrite Hj, Hb. apply bool_decide_eq_false. by intros [? ?].
Qed.

End handler_cases.

(** ** Create, update and what follows *)

Section lifecycle.

Context {J : Json}.

Variable m : Model.

Lemma isValid_false_errors r :
  snd (isValid m r) = false -> errors (validate m r) <> [].
Proof.
  unfold isValid. cbn [snd]. intros Hv He. by rewrite He in Hv.
Qed.

Lemma update_when_valid fn w :
  snd (isValid m (self w)) = true ->
  update m fn w =
    request "PUT" (url m None (self w))
      (fun err _ w' =>
         match err with
         | Some e => invoke (or_noop fn) (Some e) w'
         | None =>
             invoke (or_noop fn) None
               (emit "update" (on_self (set_dirty ∅) w'))
         end)
      (mkWorld (validate m (self w)) (trace w)).
Proof.
  unfold isValid. cbn [snd]. intros Hv. unfold update, isValid.
  by rewrite Hv.
Qed.

Lemma update_when_invalid fn w :
  snd (isValid m (self w)) = false ->
  update m fn w =
    (invoke (or_noop fn) (Some (Error "validation failed"))
       (mkWorld (validate m (self w)) (trace w)), Returned).
Proof.
  unfold isValid. cbn [snd]. intros Hv. unfold update, isValid.
  by rewrite Hv.
Qed.

Lemma save_when_old fn w :
  isNew m (self w) = false -> save m fn w = update m fn w.
Proof. intros Hn. unfold save. by rewrite Hn. Qed.

Lemma save_when_new_valid fn w :
  isNew m (self w) = true ->
  snd (isValid m (self w)) = true ->
  save m fn w =
    request "POST" (model_url m)
      (fun err res w' =>
         match err with
         | Some e => invoke (or_noop fn) (Some e) w'
         | None =>
             invoke (or_noop fn) None
               (emit "save"
                  (on_self (set_dirty ∅)
                     match body res with
                     | Some b =>
                         if truthy b
                         then on_self (primary_set m (prop b "id")) w'
                         else w'
                     | None => w'
                     end))
         end)
      (mkWorld (validate m (self w)) (trace w)).
Proof.
  intros Hn. unfold isValid. cbn [snd]. intros Hv. unfold save, isValid.
  rewrite Hn. cbn [negb]. by rewrite Hv.
Qed.

Lemma save_when_new_invalid fn w :
  isNew m (self w) = true ->
  snd (isValid m (self w)) = false ->
  save m fn w =
    (invoke (or_noop fn) (Some (Error "validation failed"))
       (mkWorld (validate m (self w)) (trace w)), Returned).
Proof.
  intros Hn. unfold isValid. cbn [snd]. intros Hv. unfold save, isValid.
  rewrite Hn. cbn [negb]. by rewrite Hv.
Qed.

(** X11: when validation fails, [save(cb)] and [update(cb)] both return at
    once having called [cb] exactly once with the error [validation
    failed]; no request is sent, and the record is left as the validators
    left it, with a non-empty [errors] for the caller to read. *)
Theorem validation_failure_reported (cb : nat) (w : World) :
  snd (isValid m (self w)) = false ->
  let r := validate m (self w) in
  let rejected :=
    (mkWorld r (trace w ++ [Called cb (Some (Error "validation failed")) r]),
     Returned) in
  errors r <> [] /\
  save m (Some cb) w = rejected /\
  update m (Some cb) w = rejected.
Proof.
  intros Hv. cbv zeta. split; [by apply isValid_false_errors|].
  assert (Hu : update m (Some cb) w =
    (mkWorld (validate m (self w))
       (trace w ++ [Called cb (Some (Error "validation failed"))
                      (validate m (self w))]), Returned)).
  { by rewrite update_when_invalid. }
  split; [|exact Hu].
  destruct (isNew m (self w)) eqn:Hn.
  - by rewrite save_when_new_invalid.
  - by rewrite save_when_old.
Qed.

Lemma unread_no_id rq : readable rq = false -> assigned_id rq = None.
Proof.
  unfold readable, assigned_id, response_body.
  destruct (json_typed rq); [|done].
  destruct (parse (responseText rq)) as [b|]; [|done].
  intros Hb. apply bool_decide_eq_false in Hb. destruct Hb. by exists b.
Qed.

(** X12: when validation passes, [update(cb)] sends one PUT to the url the
    record had before validation, with the attributes as validation left
    them.  On a 2xx response that can be read the handler clears the dirty
    marks, then emits [update], then calls [cb] without error: listeners
    and callback see a clean record, and the handler makes no use of the
    body, so attributes, errors and [destroyed] stay as they are at that
    moment.  On a 2xx response typed as JSON whose text is not JSON none of
    this happens. *)
Theorem update_success_order (cb : nat) (w : World) :
  snd (isValid m (self w)) = true ->
  exists h,
    update m (Some cb) w =
      (mkWorld (validate m (self w))
         (trace w ++ [Sent "PUT" (url m None (self w))
                        (stringify (attrs (validate m (self w))))]),
       Pending h) /\
    (forall rq w', completed rq -> is_2xx rq -> readable rq = true ->
       h rq w' =
         mkWorld (set_dirty ∅ (self w'))
           (trace w' ++ [Emitted "update" (set_dirty ∅ (self w'));
                         Called cb None (set_dirty ∅ (self w'))])) /\
    (forall rq w', completed rq -> is_2xx rq -> readable rq = false ->
       h rq w' = mkWorld (self w') (trace w' ++ [Uncaught SyntaxError])).
Proof.
  intros Hv. rewrite update_when_valid by done. unfold request.
  eexists. split; [reflexivity|]. split.
  - intros rq w' Hc Hok Hread. rewrite on_ready_success by done.
    unfold invoke, or_noop, emit, on_self, observe. simpl.
    by rewrite <- app_assoc.
  - intros rq w' Hc Hok Hread. by rewrite on_ready_unread.
Qed.

(** X13: when validation passes, [save(cb)] on a new record sends one POST
    to the collection url.  On a 2xx response that can be read the handler
    first hands [res.body.id] to [primary] when the response is JSON with a
    truthy body, then clears the dirty marks (the mark of the key
    included), then emits [save], then calls [cb] without error.  On a 2xx
    response typed as JSON whose text is not JSON none of this happens. *)
Theorem save_create_order (cb : nat) (w : World) :
  isNew m (self w) = true ->
  snd (isValid m (self w)) = true ->
  exists h,
    save m (Some cb) w =
      (mkWorld (validate m (self w))
         (trace w ++ [Sent "POST" (model_url m)
                        (stringify (attrs (validate m (self w))))]),
       Pending h) /\
    (forall rq w', completed rq -> is_2xx rq -> readable rq = true ->
       let r := match assigned_id rq with
                | Some id => primary_set m id (self w')
                | None => self w'
                end in
       h rq w' =
         mkWorld (set_dirty ∅ r)
           (trace w' ++ [Emitted "save" (set_dirty ∅ r);
                         Called cb None (set_dirty ∅ r)])) /\
    (forall rq w', completed rq -> is_2xx rq -> readable rq = false ->
       h rq w' = mkWorld (self w') (trace w' ++ [Uncaught SyntaxError])).
Proof.
  intros Hn Hv. rewrite save_when_new_valid by done. unfold request.
  eexists. split; [reflexivity|]. split.
  - intros rq w' Hc Hok Hread. rewrite on_ready_success by done.
    unfold assigned_id. cbn [body].
    destruct (response_body rq) as [b|]; [destruct (truthy b)|];
      unfold invoke, or_noop, emit, on_self, observe; simpl;
      by rewrite <- app_assoc.
  - intros rq w' Hc Hok Hread. by rewrite on_ready_unread.
Qed.

(** X14: what a 2xx answer to a create does to the identity of the record.
    With a JSON response whose body is truthy, the primary key becomes the
    body's [id] field, whatever the schema calls its key, and the record is
    new afterwards exactly when that field is [null] or missing.  With any
    other 2xx response the attributes are untouched and the record stays as
    new as it was. *)
Theorem created_record_identity (fn : option nat) (w : World) :
  isNew m (self w) = true ->
  snd (isValid m (self w)) = true ->
  exists h,
    snd (save m fn w) = Pending h /\
    forall rq w', completed rq -> is_2xx rq ->
      match assigned_id rq with
      | Some id =>
          primary_get m (self (h rq w')) = id /\
          isNew m (self (h rq w')) = negb (not_nullish id)
      | None =>
          attrs (self (h rq w')) = attrs (self w') /\
          isNew m (self (h rq w')) = isNew m (self w')
      end.
Proof.
  intros Hn Hv. rewrite save_when_new_valid by done. unfold request.
  eexists. split; [reflexivity|].
  intros rq w' Hc Hok. destruct (readable rq) eqn:Hread.
  - rewrite on_ready_success by done.
    rewrite invoke_self, emit_self.
    unfold assigned_id. cbn [body].
    destruct (response_body rq) as [b|]; [destruct (truthy b)|]; simpl;
      try done.
    apply (primary_set_reads m (prop b "id") (self w')).
  - rewrite on_ready_unread by done. by rewrite unread_no_id.
Qed.

End lifecycle.

(** ** Traces of the persistence calls *)

Lemma requests_snoc_sent t method u b :
  requests (t ++ [Sent method u b]) = requests t ++ [(method, u, b)].
Proof. unfold requests. by rewrite omap_app. Qed.

Lemma requests_snoc_emitted t event seen :
  requests (t ++ [Emitted event seen]) = requests t.
Proof. unfold requests. rewrite omap_app. simpl. by rewrite app_nil_r. Qed.


Lemma callbacks_snoc_emitted t event seen :
  callbacks (t ++ [Emitted event seen]) = callbacks t.
Proof. unfold callbacks. rewrite omap_app. simpl. by rewrite app_nil_r. Qed.


Section traces.

Context {J : Json}.

Variable m : Model.

Lemma on_ready_either fn rq w :
  on_ready fn rq w = w \/
  on_ready fn rq w = observe (Uncaught SyntaxError) w \/
  exists res, on_ready fn rq w = fn None res w.
Proof.
  unfold on_ready.
  destruct (4 =? readyState rq); [|by left].
  destruct (2 =? _); [|by left].
  right. destruct (String.eqb _ _); [|right; by eexists].
  destruct (parse (responseText rq)); [right; by eexists | by left].
Qed.

Lemma requests_snoc_uncaught t e : requests (t ++ [Uncaught e]) = requests t.
Proof. unfold requests. rewrite omap_app. simpl. by rewrite app_nil_r. Qed.


(** The shape every persistence call has: it returns at once, having
    called back with an error when a callback was given; or it throws,
    which only [destroy] without callback does; or it sends one request and
    leaves a handler that, on each state change, does nothing or ends by
    calling back without error, never sending anything. *)
Lemma perform_shape (o : operation) (fn : option nat) (w : World) :
  (exists r msg,
     perform m o fn w =
       (invoke (or_noop fn) (Some (Error msg)) (mkWorld r (trace w)), Returned) /\
     msg = match o with
           | Destroy => "not saved"
           | _ => "validation failed"
           end /\
     (o = Destroy -> fn <> None)) \/
  (perform m o fn w = (w, Threw TypeError) /\ o = Destroy /\ fn = None) \/
  (exists r method u b k,
     perform m o fn w =
       (mkWorld r (trace w ++ [Sent method u b]), Pending (on_ready k)) /\
     forall res w', exists w'',
       k None res w' = invoke (or_noop fn) None w'' /\
       requests (trace w'') = requests (trace w') /\
       callbacks (trace w'') = callbacks (trace w')).
Proof.
  assert (Hupd : forall w0,
    (exists r msg,
       update m fn w0 =
         (invoke (or_noop fn) (Some (Error msg)) (mkWorld r (trace w0)),
          Returned) /\
       msg = "validation failed") \/
    (exists r method u b k,
       update m fn w0 =
         (mkWorld r (trace w0 ++ [Sent method u b]), Pending (on_ready k)) /\
       forall res w', exists w'',
         k None res w' = invoke (or_noop fn) None w'' /\
         requests (trace w'') = requests (trace w') /\
         callbacks (trace w'') = callbacks (trace w'))).
  { intros w0. destruct (snd (isValid m (self w0))) eqn:Hv.
    - right. rewrite update_when_valid by done. unfold request.
      do 5 eexists. split; [reflexivity|].
      intros res w'. eexists. split; [reflexivity|].
      unfold emit, on_self, observe. simpl.
      by rewrite requests_snoc_emitted, callbacks_snoc_emitted.
    - left. rewrite update_when_invalid by done. by do 2 eexists. }
  destruct o; simpl.
  - destruct (isNew m (self w)) eqn:Hn.
    + destruct (snd (isValid m (self w))) eqn:Hv.
      * right. right. rewrite save_when_new_valid by done. unfold request.
        do 5 eexists. split; [reflexivity|].
        intros res w'. eexists. split; [reflexivity|].
        unfold emit, on_self, observe. simpl.
        rewrite requests_snoc_emitted, callbacks_snoc_emitted.
        destruct (body res) as [b|]; [destruct (truthy b)|]; done.
      * left. rewrite save_when_new_invalid by done.
        do 2 eexists. by split; [reflexivity|].
    + rewrite save_when_old by done.
      destruct (Hupd w) as [(r & msg & Hu & ->)|Hu].
      * left. exists r. eexists. by split; [exact Hu|].
      * right. by right.
  - destruct (Hupd w) as [(r & msg & Hu & ->)|Hu].
    + left. exists r. eexists. by split; [exact Hu|].
    + right. by right.
  - unfold destroy. destruct (isNew m (self w)) eqn:Hn.
    + destruct fn as [cb|].
      * left. exists (self w). eexists. split; [|done].
        by destruct w.
      * right. by left.
    + right. right. unfold request.
      do 5 eexists. split; [reflexivity|].
      intros res w'. eexists. split; [reflexivity|].
      unfold emit, on_self, observe. simpl.
      by rewrite requests_snoc_emitted, callbacks_snoc_emitted.
Qed.

(** X15: a call of [save], [update] or [destroy] sends one request or
    none: either it returns with a pending handler, having appended exactly
    one request to the trace, or nothing is pending and no request was
    sent.  The handler itself never sends a request, whatever the response:
    nothing is retried. *)
Theorem at_most_one_request (o : operation) (fn : option nat) (w : World) :
  ((exists h method u b,
      snd (perform m o fn w) = Pending h /\
      trace (fst (perform m o fn w)) = trace w ++ [Sent method u b]) \/
   ((forall h, snd (perform m o fn w) <> Pending h) /\
    requests (trace (fst (perform m o fn w))) = requests (trace w))) /\
  (forall h, snd (perform m o fn w) = Pending h ->
     forall rq w', requests (trace (h rq w')) = requests (trace w')).
Proof.
  destruct (perform_shape o fn w)
    as [(r & msg & Hp & _)|[(Hp & _)|(r & method & u & b & k & Hp & Hk)]];
    rewrite Hp; simpl.
  - split; [|done]. right. split; [done|]. by rewrite requests_invoke.
  - split; [|done]. right. done.
  - split.
    + left. by do 4 eexists.
    + intros h [= <-] rq w'.
      destruct (on_ready_either k rq w') as [->|[->|(res & ->)]]; [done| |].
      * apply requests_snoc_uncaught.
      * destruct (Hk res w') as (w'' & -> & Hr & _).
        by rewrite requests_invoke.
Qed.


End traces.

(** ** After the response *)

Section after_response.

Context {J : Json}.

Variable m : Model.

Lemma isNew_set_dirty d r : isNew m (set_dirty d r) = isNew m r.
Proof. done. Qed.

Lemma created_world fn w rq :
  isNew m (self w) = true ->
  snd (isValid m (self w)) = true ->
  completed rq -> is_2xx rq -> readable rq = true ->
  let r := match assigned_id rq with
           | Some id => primary_set m id (validate m (self w))
           | None => validate m (self w)
           end in
  self (deliver (save m fn w) rq) = set_dirty ∅ r /\
  emitted (trace (deliver (save m fn w) rq)) = emitted (trace w) ++ ["save"].
Proof.
  intros Hn Hv Hc Hok Hread. rewrite save_when_new_valid by done.
  unfold request, deliver. rewrite on_ready_success by done.
  rewrite invoke_self, emit_self.
  unfold assigned_id. cbn [body].
  split.
  - destruct (response_body rq) as [b|]; [destruct (truthy b)|]; done.
  - assert (Hi : forall f e w0, emitted (trace (invoke f e w0)) = emitted (trace w0)).
    { intros [|cb] e w0; simpl; [done|].
      unfold emitted. rewrite omap_app. simpl. by rewrite app_nil_r. }
    rewrite Hi. unfold emit, observe. cbn [trace].
    assert (Ht : forall w0 : World,
      trace (on_self (set_dirty ∅)
               match response_body rq with
               | Some b =>
                   if truthy b then on_self (primary_set m (prop b "id")) w0
                   else w0
               | None => w0
               end) = trace w0).
    { intros w0. destruct (response_body rq) as [b|]; [destruct (truthy b)|];
        done. }
    rewrite Ht. simpl. unfold emitted. rewrite !omap_app. simpl.
    by rewrite app_nil_r.
Qed.

(** X17: create, then save again.  When the 2xx answer to the POST of a
    new record is JSON with a truthy body whose [id] is neither [null] nor
    missing, the record is no longer new, it is clean, its url ends in that
    id, and every later [save] is an [update]. *)
Theorem save_again_is_update (fn : option nat) (w : World) (rq : xhr)
    (id : value) :
  isNew m (self w) = true ->
  snd (isValid m (self w)) = true ->
  completed rq -> is_2xx rq ->
  assigned_id rq = Some id ->
  not_nullish id = true ->
  isNew m (self (deliver (save m fn w) rq)) = false /\
  changed (self (deliver (save m fn w) rq)) = None /\
  url m None (self (deliver (save m fn w) rq)) =
    base m +:+ "/" +:+ to_string id /\
  forall fn',
    save m fn' (deliver (save m fn w) rq) =
      update m fn' (deliver (save m fn w) rq).
Proof.
  intros Hn Hv Hc Hok Hid Hnn.
  assert (Hread : readable rq = true).
  { destruct (readable rq) eqn:Hr; [done|].
    apply unread_no_id in Hr. congruence. }
  destruct (created_world fn w rq Hn Hv Hc Hok Hread) as [Hs _].
  rewrite Hid in Hs.
  destruct (primary_set_reads m id (validate m (self w))) as [Hg Hi].
  assert (Hnew : isNew m (self (deliver (save m fn w) rq)) = false).
  { rewrite Hs, isNew_set_dirty, Hi. by rewrite Hnn. }
  split; [exact Hnew|]. split; [|split].
  - rewrite Hs. by apply changed_empty.
  - rewrite Hs. unfold url.
    change (primary_get m (set_dirty ∅ (primary_set m id (validate m (self w)))))
      with (primary_get m (primary_set m id (validate m (self w)))).
    by rewrite Hg.
  - intros fn'. by apply save_when_old.
Qed.

(** X18: a create that is answered by a 2xx response that can be read
    but carries no usable body (no JSON content type, or a falsy body)
    looks like a success to the caller, as [save] is emitted and the dirty
    marks are cleared, but the record is still new: with validators that
    act on [errors] only, the next [save] that passes validation sends the
    POST to the collection again. *)
Theorem create_without_id_repeats (fn : option nat) (w : World) (rq : xhr) :
  Forall only_errors (validators m) ->
  isNew m (self w) = true ->
  snd (isValid m (self w)) = true ->
  completed rq -> is_2xx rq -> readable rq = true ->
  assigned_id rq = None ->
  isNew m (self (deliver (save m fn w) rq)) = true /\
  changed (self (deliver (save m fn w) rq)) = None /\
  emitted (trace (deliver (save m fn w) rq)) = emitted (trace w) ++ ["save"] /\
  forall fn',
    snd (isValid m (self (deliver (save m fn w) rq))) = true ->
    exists h,
      save m fn' (deliver (save m fn w) rq) =
        (mkWorld (validate m (self (deliver (save m fn w) rq)))
           (trace (deliver (save m fn w) rq) ++
            [Sent "POST" (model_url m)
               (stringify (attrs (validate m (self (deliver (save m fn w) rq)))))]),
         Pending h).
Proof.
  intros Hval Hn Hv Hc Hok Hread Hid.
  destruct (created_world fn w rq Hn Hv Hc Hok Hread) as [Hs He].
  rewrite Hid in Hs.
  assert (Ha : attrs (validate m (self w)) = attrs (self w)).
  { assert (Hr := run_validators_only_errors _ Hval (set_errors [] (self w))).
    change (set_errors [] (validate m (self w)) = set_errors [] (self w)) in Hr.
    change (attrs (set_errors [] (validate m (self w))) = attrs (self w)).
    by rewrite Hr. }
  assert (Hnew : isNew m (self (deliver (save m fn w) rq)) = true).
  { rewrite Hs, isNew_set_dirty. unfold isNew, has, get in *. by rewrite Ha. }
  split; [exact Hnew|]. split; [|split; [exact He|]].
  - rewrite Hs. by apply changed_empty.
  - intros fn' Hv'. rewrite save_when_new_valid by done. unfold request.
    by eexists.
Qed.

Lemma validate_destroyed r :
  Forall keeps_destroyed (validators m) ->
  destroyed (validate m r) = destroyed r.
Proof.
  intros Hk. unfold validate.
  assert (Hf : forall vs r0, Forall keeps_destroyed vs ->
            destroyed (fold_left (fun self fn => fn self) vs r0) = destroyed r0).
  { intros vs r0 Hvs. revert r0.
    induction Hvs as [|v vs Hv _ IH]; intros r0; simpl; [done|].
    by rewrite IH, Hv. }
  by rewrite Hf.
Qed.

(** X19: [destroyed] is written in one place only.  With validators that
    leave the flag alone, no call of [save], [update] or [destroy] changes
    it before returning; the handlers of [save] and [update] never change
    it, and the handler of [destroy] either leaves it or sets it.  So a
    record once destroyed stays destroyed, and nothing but an answered
    [destroy] marks it. *)
Theorem destroyed_written_once (o : operation) (fn : option nat) (w : World) :
  Forall keeps_destroyed (validators m) ->
  destroyed (self (fst (perform m o fn w))) = destroyed (self w) /\
  forall h, snd (perform m o fn w) = Pending h ->
    forall rq w',
      destroyed (self (h rq w')) = destroyed (self w') \/
      (o = Destroy /\ destroyed (self (h rq w')) = true).
Proof.
  intros Hk.
  assert (Hupd : forall w0,
    destroyed (self (fst (update m fn w0))) = destroyed (self w0) /\
    forall h, snd (update m fn w0) = Pending h ->
      forall rq w', destroyed (self (h rq w')) = destroyed (self w')).
  { intros w0. destruct (snd (isValid m (self w0))) eqn:Hv.
    - rewrite update_when_valid by done. unfold request. simpl.
      split; [by apply validate_destroyed|].
      intros h [= <-] rq w'.
      destruct (on_ready_either
        (fun err (_ : response) w' =>
           match err with
           | Some e => invoke (or_noop fn) (Some e) w'
           | None => invoke (or_noop fn) None
                       (emit "update" (on_self (set_dirty ∅) w'))
           end) rq w') as [->|[->|(res & ->)]]; [done|done|].
      by rewrite invoke_self.
    - rewrite update_when_invalid by done. simpl. rewrite invoke_self. simpl.
      split; [by apply validate_destroyed | done]. }
  destruct o; simpl.
  - destruct (isNew m (self w)) eqn:Hn.
    + destruct (snd (isValid m (self w))) eqn:Hv.
      * rewrite save_when_new_valid by done. unfold request. simpl.
        split; [by apply validate_destroyed|].
        intros h [= <-] rq w'. left.
        unfold on_ready.
        destruct (4 =? readyState rq); [|done].
        destruct (2 =? _); [|done].
        destruct (String.eqb _ _).
        -- destruct (parse (responseText rq)) as [b|]; [|done].
           rewrite invoke_self, emit_self. cbn [body].
           by destruct (truthy b).
        -- by rewrite invoke_self, emit_self.
      * rewrite save_when_new_invalid by done. simpl. rewrite invoke_self.
        simpl. split; [by apply validate_destroyed | done].
    + rewrite save_when_old by done.
      destruct (Hupd w) as [H1 H2]. split; [exact H1|].
      intros h Hp rq w'. left. by apply H2.
  - destruct (Hupd w) as [H1 H2]. split; [exact H1|].
    intros h Hp rq w'. left. by apply H2.
  - unfold destroy. destruct (isNew m (self w)) eqn:Hn.
    + destruct fn as [cb|]; simpl; done.
    + unfold request. simpl. split; [done|].
      intros h [= <-] rq w'. unfold on_ready.
      destruct (4 =? readyState rq); [|by left].
      destruct (2 =? _); [|by left].
      destruct (String.eqb _ _).
      * destruct (parse (responseText rq)) as [b|]; [|by left].
        right. split; [done|]. by rewrite invoke_self.
      * right. split; [done|]. by rewrite invoke_self.
Qed.

(** X20: [update] has no guard against a record without primary key.  On
    a new record [url()] ends in [/undefined] or [/null], and an [update]
    that passes validation sends its PUT there. *)
Theorem update_of_new_record (fn : option nat) (w : World) :
  isNew m (self w) = true ->
  snd (isValid m (self w)) = true ->
  (url m None (self w) = base m +:+ "/undefined" \/
   url m None (self w) = base m +:+ "/null") /\
  (attrs (self w) !! primaryKey m = None ->
   url m None (self w) = base m +:+ "/undefined") /\
  exists h,
    update m fn w =
      (mkWorld (validate m (self w))
         (trace w ++ [Sent "PUT" (url m None (self w))
                        (stringify (attrs (validate m (self w))))]),
       Pending h).
Proof.
  intros Hn Hv. split; [|split].
  - unfold isNew, has in Hn. unfold url, primary_get, accessor_get.
    destruct (get (primaryKey m) (self w)); try done; auto.
  - intros Hk. unfold url, primary_get, accessor_get, get. by rewrite Hk.
  - rewrite update_when_valid by done. unfold request. by eexists.
Qed.

End after_response.

(** ** The properties on the scenarios *)

Lemma http_200_ok : completed http_200 /\ is_2xx http_200.
Proof. unfold completed, is_2xx. simpl. lia. Qed.

Lemma http_201_ok : completed http_201 /\ is_2xx http_201.
Proof. unfold completed, is_2xx. simpl. lia. Qed.

Lemma http_204_ok : completed http_204 /\ is_2xx http_204.
Proof. unfold completed, is_2xx. simpl. lia. Qed.

Lemma name_required_keeps_destroyed : Forall keeps_destroyed (validators User).
Proof.
  repeat constructor. intros r. unfold name_required.
  by destruct (has "name" r).
Qed.

Lemma validation_failure_reported_witness :
  snd (isValid User (self blank)) = false /\
  errors (self (fst (save (J := scenario_json) User (Some 7%nat) blank))) =
    [ErrorEntry "name" "is required"] /\
  callbacks (trace (fst (save (J := scenario_json) User (Some 7%nat) blank))) =
    [(7%nat, Some (Error "validation failed"))] /\
  requests (trace (fst (update (J := scenario_json) User (Some 7%nat) blank))) = [].
Proof.
  split; [reflexivity|].
  destruct (validation_failure_reported (J := scenario_json) User 7%nat blank eq_refl)
    as (_ & Hs & Hu).
  rewrite Hs, Hu. repeat split.
Defined.

Lemma update_success_order_witness :
  snd (isValid User (self persisted)) = true /\
  emitted (trace (deliver (update (J := scenario_json) User (Some 7%nat) persisted)
                    http_200)) = ["update"] /\
  changed (self (deliver (update (J := scenario_json) User (Some 7%nat) persisted)
                   http_200)) = None.
Proof.
  split; [reflexivity|].
  destruct (update_success_order (J := scenario_json) User 7%nat persisted eq_refl)
    as (h & Hu & Hh & _).
  rewrite Hu. simpl.
  match goal with
  | |- context [h http_200 ?w1] =>
      rewrite (Hh http_200 w1 (proj1 http_200_ok) (proj2 http_200_ok) eq_refl)
  end.
  repeat split.
Defined.

Lemma save_create_order_witness :
  isNew User (self fresh) = true /\
  snd (isValid User (self fresh)) = true /\
  requests (trace (deliver (save (J := scenario_json) User (Some 7%nat) fresh)
                     http_201)) =
    [("POST", "/users", flat_stringify (attrs (self fresh)))] /\
  emitted (trace (deliver (save (J := scenario_json) User (Some 7%nat) fresh)
                    http_201)) = ["save"] /\
  callbacks (trace (deliver (save (J := scenario_json) User (Some 7%nat) fresh)
                      http_201)) = [(7%nat, None)].
Proof.
  split; [reflexivity|]. split; [reflexivity|].
  destruct (save_create_order (J := scenario_json) User 7%nat fresh eq_refl eq_refl)
    as (h & Hs & Hh & _).
  rewrite Hs. simpl.
  match goal with
  | |- context [h http_201 ?w1] =>
      rewrite (Hh http_201 w1 (proj1 http_201_ok) (proj2 http_201_ok) eq_refl)
  end.
  repeat split.
Defined.

Lemma created_record_identity_witness :
  isNew User (self fresh) = true /\
  snd (isValid User (self fresh)) = true /\
  assigned_id (J := scenario_json) http_201 = Some (VNum 5) /\
  primary_get User
    (self (deliver (save (J := scenario_json) User (Some 7%nat) fresh) http_201)) =
    VNum 5.
Proof.
  split; [reflexivity|]. split; [reflexivity|]. split; [reflexivity|].
  destruct (created_record_identity (J := scenario_json) User (Some 7%nat) fresh
              eq_refl eq_refl) as (h & Hp & Hh).
  destruct (save User (Some 7%nat) fresh) as [w1 o]. simpl in Hp. subst o.
  simpl.
  assert (H5 := Hh http_201 w1 (proj1 http_201_ok) (proj2 http_201_ok)).
  change (assigned_id http_201) with (Some (VNum 5)) in H5.
  exact (proj1 H5).
Defined.

Lemma save_again_is_update_witness :
  isNew User (self fresh) = true /\
  isNew User
    (self (deliver (save (J := scenario_json) User (Some 7%nat) fresh) http_201)) =
    false /\
  url User None
    (self (deliver (save (J := scenario_json) User (Some 7%nat) fresh) http_201)) =
    "/users/5".
Proof.
  split; [reflexivity|].
  destruct (save_again_is_update (J := scenario_json) User (Some 7%nat) fresh
              http_201 (VNum 5) eq_refl eq_refl
              (proj1 http_201_ok) (proj2 http_201_ok) eq_refl eq_refl)
    as (Hn & _ & Hu & _).
  split; [exact Hn | exact Hu].
Defined.

Lemma create_without_id_repeats_witness :
  assigned_id (J := scenario_json) http_204 = None /\
  isNew User
    (self (deliver (save (J := scenario_json) User (Some 7%nat) fresh) http_204)) =
    true /\
  emitted
    (trace (deliver (save (J := scenario_json) User (Some 7%nat) fresh) http_204)) =
    ["save"].
Proof.
  split; [reflexivity|].
  destruct (create_without_id_repeats (J := scenario_json) User (Some 7%nat) fresh
              http_204 name_required_only_errors eq_refl eq_refl
              (proj1 http_204_ok) (proj2 http_204_ok) eq_refl eq_refl)
    as (Hn & _ & He & _).
  split; [exact Hn | exact He].
Defined.

Lemma destroyed_written_once_witness :
  destroyed
    (self (fst (destroy (J := scenario_json) User (Some 7%nat) persisted))) =
    destroyed (self persisted).
Proof.
  exact (proj1 (destroyed_written_once (J := scenario_json) User Destroy
                  (Some 7%nat) persisted name_required_keeps_destroyed)).
Defined.

Lemma update_of_new_record_witness :
  isNew User (self fresh) = true /\
  snd (isValid User (self fresh)) = true /\
  requests (trace (fst (update (J := scenario_json) User (Some 7%nat) fresh))) =
    [("PUT", "/users/undefined", flat_stringify (attrs (self fresh)))].
Proof.
  split; [reflexivity|]. split; [reflexivity|].
  destruct (update_of_new_record (J := scenario_json) User (Some 7%nat) fresh
              eq_refl eq_refl) as (_ & _ & h & Hu).
  rewrite Hu. reflexivity.
Defined.

(** X21: a schema without validators accepts every record: [isValid] only
    empties [errors] and answers [true], so [save] and [update] never end
    with [validation failed] and always send their request. *)
Theorem no_validators_always_valid {J : Json} (m : Model) (fn : option nat)
    (w : World) :
  validators m = [] ->
  isValid m (self w) = (set_errors [] (self w), true) /\
  (exists h, snd (save m fn w) = Pending h) /\
  (exists h, snd (update m fn w) = Pending h) /\
  requests (trace (fst (update m fn w))) =
    requests (trace w) ++
    [("PUT", url m None (self w), stringify (attrs (self w)))].
Proof.
  intros Hvs.
  assert (Hv : isValid m (self w) = (set_errors [] (self w), true)).
  { unfold isValid, validate. by rewrite Hvs. }
  assert (Hval : validate m (self w) = set_errors [] (self w)).
  { unfold validate. by rewrite Hvs. }
  assert (Hu : update m fn w =
    request "PUT" (url m None (self w))
      (fun err _ w' =>
         match err with
         | Some e => invoke (or_noop fn) (Some e) w'
         | None =>
             invoke (or_noop fn) None
               (emit "update" (on_self (set_dirty ∅) w'))
         end)
      (mkWorld (validate m (self w)) (trace w))).
  { apply update_when_valid. by rewrite Hv. }
  split; [exact Hv|]. split; [|split].
  - destruct (isNew m (self w)) eqn:Hn.
    + rewrite save_when_new_valid by (done || by rewrite Hv).
      unfold request. by eexists.
    + rewrite save_when_old by done. rewrite Hu. unfold request. by eexists.
  - rewrite Hu. unfold request. by eexists.
  - rewrite Hu. unfold request. simpl. rewrite requests_snoc_sent.
    by rewrite Hval.
Qed.

Lemma no_validators_always_valid_witness :
  validators Doc = [] /\
  snd (isValid Doc (self blank)) = true /\
  requests (trace (fst (update (J := scenario_json) Doc None blank))) =
    [("PUT", "/docs/undefined", flat_stringify ∅)].
Proof.
  split; [reflexivity|].
  destruct (no_validators_always_valid (J := scenario_json) Doc None blank eq_refl)
    as (Hv & _ & _ & Hr).
  split; [by rewrite Hv | exact Hr].
Defined.

(** ** A 2xx response that cannot be read *)


